(** * connectchain.lcel.model: the LCEL model resolver

    A shallow embedding of [src/connectchain/lcel/model.py] and a
    verification of the resolver's error behaviour, of its use of the
    session cache and the token store, and of the proxy decision chain.

    The module is stateful Python: it reads and writes [os.environ], the
    process-wide [SessionMap], allocates SDK client objects and mutates
    them through the proxy wrapper.  It is embedded as a state-and-exception
    monad over an explicit [World]. *)

From stdpp Require Import gmap strings list fin_maps.
From Stdlib Require Import ZArith Ascii.

Set Default Proof Using "Type".

(** ** Configuration data *)

(** Modelled from the spec: the [Config] wrapper (connectchain.utils) is
    absent from the sources; its attribute lookup may find the attribute
    absent.  The source guards [config.models], [model_config.proxy] and
    [config.proxy] with [except KeyError]: reading an attribute that the
    configuration does not declare raises [KeyError]; a declared attribute
    may still hold Python's [None]. *)
Inductive attr (A : Type) : Type :=
| Absent
| Declared (v : option A).
Arguments Absent {A}.
Arguments Declared {A} v.

(** Modelled from the spec: the shape of a ProxyConfig is declared outside
    the sources; the resolver only hands it to the proxy wrapper. *)
Record ProxyConfig := { proxy_host : string; proxy_port : Z }.

(** Modelled from the spec: a ModelConfig, one entry of [config.models],
    is declared outside the sources.  The source reads [provider], [type],
    [model_name], [api_base], [api_version] and [engine] without a guard;
    only [proxy] is optional.  An entry that leaves one of the unguarded
    attributes undeclared, where the read itself would raise, is outside
    this model. *)
Record ModelConfig := {
  provider : string;
  type : string;
  model_name : string;
  api_base : string;
  api_version : string;
  engine : string;
  proxy : attr ProxyConfig
}.

(** Modelled from the spec: the refresh interval handed to [SessionMap]
    (connectchain.utils, absent from the sources) is a concrete duration
    unless explicitly configured as unbounded. *)
Inductive Interval :=
| Unbounded
| Seconds (d : Z).

(** Modelled from the spec: the GlobalConfig is declared outside the
    sources: the models by index, the optional global proxy settings and
    the token refresh interval, read as [config.eas.token_refresh_interval]. *)
Record EASConfig := { token_refresh_interval : Interval }.

Record Config := {
  models : attr (gmap string (option ModelConfig));
  global_proxy : attr ProxyConfig;
  eas : EASConfig
}.

(** ** Exceptions *)

Inductive exn :=
| LCELModelException (msg : string)
| KeyError (key : string)
| TypeError (msg : string)
| UnboundLocalError (var : string)
| TokenIssuerError (msg : string).

Inductive result (A : Type) : Type :=
| Return (a : A)
| Raise (e : exn).
Arguments Return {A} a.
Arguments Raise {A} e.

Definition quote : string := String "034"%char EmptyString.

(** The three [raise LCELModelException(...)] sites of [_get_model_], under
    the names the specification gives them. *)
Definition ConfigError : exn :=
  LCELModelException "No models defined in config".
Definition ModelNotFoundError (index : string) : exn :=
  LCELModelException
    ("Model config at index " +:+ quote +:+ index +:+ quote +:+ " is not defined").
Definition UnsupportedProviderError : exn :=
  LCELModelException "Not implemented".

(** ** SDK client objects *)

(** The two constructors of [langchain_openai] the module calls, with the
    keyword arguments they are given. *)
Inductive SDKClient :=
| ChatOpenAI (model openai_api_key openai_api_base : string)
    (model_kwargs : gmap string string)
| AzureOpenAI (model openai_api_key openai_api_base openai_api_version : string)
    (model_kwargs : gmap string string).

(** A client object on the heap.  [transport] is what the proxy wrapper
    sets. *)
Record LLM := { client : SDKClient; transport : option ProxyConfig }.

(** A handle is a reference to a heap object. *)
Abbreviation handle := nat.

(** ** The world the resolver runs in *)

(** Modelled from the spec: an entry of the Session Cache ([SessionMap],
    absent from the sources) pairs the cached client handle with its issue
    time. *)
Record SessionEntry := { entry_llm : handle; issued_at : Z }.

Record World := {
  loaded_config : Config;               (* what Config.from_env() yields *)
  environ : gmap string string;         (* os.environ, the Token Store *)
  sessions : gmap string SessionEntry;  (* the process-wide session cache *)
  now : Z;                              (* the clock, in seconds *)
  heap : list LLM;                      (* client objects, by handle *)
  issuer_calls : list string            (* indices given to the Token Issuer *)
}.

Definition set_environ (f : gmap string string → gmap string string) (w : World) : World :=
  {| loaded_config := loaded_config w; environ := f (environ w);
     sessions := sessions w; now := now w; heap := heap w;
     issuer_calls := issuer_calls w |}.

Definition set_sessions (f : gmap string SessionEntry → gmap string SessionEntry)
    (w : World) : World :=
  {| loaded_config := loaded_config w; environ := environ w;
     sessions := f (sessions w); now := now w; heap := heap w;
     issuer_calls := issuer_calls w |}.

Definition set_heap (f : list LLM → list LLM) (w : World) : World :=
  {| loaded_config := loaded_config w; environ := environ w;
     sessions := sessions w; now := now w; heap := f (heap w);
     issuer_calls := issuer_calls w |}.

Definition set_issuer_calls (f : list string → list string) (w : World) : World :=
  {| loaded_config := loaded_config w; environ := environ w;
     sessions := sessions w; now := now w; heap := heap w;
     issuer_calls := f (issuer_calls w) |}.

(** ** The state-and-exception monad *)

Definition M (A : Type) : Type := World → result A * World.

#[export] Instance M_ret : MRet M := λ A a w, (Return a, w).
#[export] Instance M_bind : MBind M := λ A B f m w,
  match m w with
  | (Return a, w') => f a w'
  | (Raise e, w') => (Raise e, w')
  end.

Definition raise {A : Type} (e : exn) : M A := λ w, (Raise e, w).

(** [try: body except: handler], where [handler] answers [None] for the
    exceptions the [except] clause does not name. *)
Definition try_except {A : Type} (body : M A) (handler : exn → option (M A)) : M A :=
  λ w, match body w with
       | (Return a, w') => (Return a, w')
       | (Raise e, w') =>
           match handler e with
           | Some h => h w'
           | None => (Raise e, w')
           end
       end.

Definition on_KeyError {A : Type} (h : M A) (e : exn) : option (M A) :=
  match e with
  | KeyError _ => Some h
  | _ => None
  end.

Definition gets {A : Type} (f : World → A) : M A := λ w, (Return (f w), w).
Definition modify (f : World → World) : M unit := λ w, (Return tt, f w).

(** ** Python primitives *)

(** Modelled from the spec: attribute access on the [Config] wrapper
    (connectchain.utils, absent from the sources), which raises [KeyError]
    for an attribute that is not declared, as the [except] clauses of the
    source expect. *)
Definition getattr {A : Type} (name : string) (a : attr A) : M (option A) :=
  match a with
  | Absent => raise (KeyError name)
  | Declared v => mret v
  end.

(** Modelled from the spec: [models[index]] on the [Config] wrapper
    (connectchain.utils, absent from the sources).  The lookup of a
    ModelConfig by index finds the index absent or mapped to an undefined
    or null entry, and both fail alike with the model-not-found error: the
    subscript answers [None] for an absent index as for a null entry, which
    is the answer the check of line 44 tests for.  When [config.models] is
    itself [None] there is no wrapper to ask: subscripting Python's [None]
    is a [TypeError]. *)
Definition getitem {A : Type} (m : option (gmap string (option A))) (key : string)
    : M (option A) :=
  match m with
  | None => raise (TypeError "'NoneType' object is not subscriptable")
  | Some d =>
      match d !! key with
      | Some v => mret v
      | None => mret None
      end
  end.

(** A local variable that may not have been assigned yet. *)
Definition read_local {A : Type} (name : string) (v : option A) : M A :=
  match v with
  | Some a => mret a
  | None => raise (UnboundLocalError name)
  end.

Definition Config_from_env : M Config := gets loaded_config.

Definition os_getenv (key : string) : M (option string) :=
  gets (λ w, environ w !! key).

Definition os_environ_setitem (key value : string) : M unit :=
  modify (set_environ (insert key value)).

(** Allocation of a fresh client object: the call of an SDK constructor,
    taken here to return.  A constructor that raises is outside this
    model; its exception would leave [_get_openai_model_] at the call. *)
Definition new_object (c : SDKClient) : M handle :=
  λ w, (Return (length (heap w)),
        set_heap (λ h, h ++ [ {| client := c; transport := None |} ]) w).

(** Modelled from the spec: the effect of the Proxy Wrapper
    (connectchain.utils.llm_proxy_wrapper, absent from the sources) on the
    world: the transport of the handle's object is set to the proxy. *)
Definition wrapped (llm : handle) (proxy_config : ProxyConfig) (w : World) : World :=
  set_heap (alter (λ o, {| client := client o; transport := Some proxy_config |}) llm) w.

(** Modelled from the spec: [wrap_llm_with_proxy]
    (connectchain.utils.llm_proxy_wrapper, absent from the sources) mutates
    the handle's transport so that later calls route through the proxy.
    The resolver discards its return value, so the effect is in place. *)
Definition wrap_llm_with_proxy (llm : handle) (proxy_config : ProxyConfig) : M unit :=
  modify (wrapped llm proxy_config).

(** ** The Session Cache *)

(** Modelled from the spec: [SessionMap(refresh_interval)]
    (connectchain.utils, absent from the sources) is a view on the
    process-wide cache that remembers the refresh interval. *)
Record SessionMap := { refresh_interval : Interval }.

(** Modelled from the spec: expiry in the Session Cache ([SessionMap],
    absent from the sources) is true if no entry exists, or if
    [now - issuedAt >= refreshInterval]. *)
Definition expired (interval : Interval) (key : string) (w : World) : bool :=
  match sessions w !! key with
  | None => true
  | Some e =>
      match interval with
      | Unbounded => false
      | Seconds d => (d <=? now w - issued_at e)%Z
      end
  end.

(** Modelled from the spec: [SessionMap.is_expired] (connectchain.utils,
    absent from the sources) answers [expired] for the view's interval. *)
Definition is_expired (self : SessionMap) (key : string) : M bool :=
  gets (expired (refresh_interval self) key).

(** Modelled from the spec: [SessionMap.get_llm] returns the cached
    handle only, without consulting expiry; absence is a sentinel
    (Python's [None]), not an error. *)
Definition get_llm (self : SessionMap) (key : string) : M (option handle) :=
  gets (λ w, entry_llm <$> sessions w !! key).

(** Modelled from the spec: [SessionMap.new_session] stores or replaces the
    entry with [issuedAt = now]. *)
Definition new_session (self : SessionMap) (key : string) (llm : handle) : M unit :=
  modify (λ w, set_sessions
                 (insert key {| entry_llm := llm; issued_at := now w |}) w).

(** ** Provider builders *)

Definition azure_kwargs (model_config : ModelConfig) : gmap string string :=
  <["engine" := engine model_config]>
    (<["api_version" := api_version model_config]>
       (<["api_type" := "azure"]> ∅)).

Definition _get_chat_model_ (auth_token : string) (model_config : ModelConfig) : M handle :=
  new_object
    (ChatOpenAI (model_name model_config) auth_token (api_base model_config)
       (azure_kwargs model_config)).

Definition _get_azure_model_ (auth_token : string) (model_config : ModelConfig) : M handle :=
  new_object
    (AzureOpenAI (model_name model_config) auth_token (api_base model_config)
       (api_version model_config) (azure_kwargs model_config)).

Section Resolver.

(** The derivation behind the fingerprint, left abstract. *)
Variable digest : list string → string.

(** The external Token Issuer behind [get_token_from_env]
    (connectchain.utils): it may consult anything in the world and may
    fail; a failure propagates. *)
Variable issue_token : string → World → exn + string.

(** Modelled from the spec: the identity-relevant fields of a
    configuration pair are the provider, the model name, the API base, the
    API version and the engine. *)
Definition identity_fields (model_config : ModelConfig) : list string :=
  [provider model_config; model_name model_config; api_base model_config;
   api_version model_config; engine model_config].

(** Modelled from the spec: [SessionMap.uuid_from_config]
    (connectchain.utils, absent from the sources) is a pure function of the
    identity-relevant fields of its inputs. *)
Definition uuid_from_config (config : Config) (model_config : ModelConfig) : string :=
  digest (identity_fields model_config).

(** Modelled from the spec: [get_token_from_env(index)]
    (connectchain.utils, absent from the sources) is one call to the Token
    Issuer; the call is logged. *)
Definition get_token_from_env (index : string) : M string :=
  λ w, let w' := set_issuer_calls (λ l, l ++ [index]) w in
       match issue_token index w with
       | inr token => (Return token, w')
       | inl e => (Raise e, w')
       end.

Definition _get_openai_model_ (index : string) (config : Config)
    (model_config : ModelConfig) : M (option handle) :=
  let model_session_key := uuid_from_config config model_config in
  auth_token ← os_getenv model_session_key;
  let session_map := {| refresh_interval := token_refresh_interval (eas config) |} in
  refresh ← match auth_token with
            | None => mret true
            | Some _ => is_expired session_map model_session_key
            end;
  if (refresh : bool) then
    auth_token ← get_token_from_env index;
    _ ← os_environ_setitem model_session_key auth_token;
    llm ← (if String.eqb (type model_config) "chat"
           then _get_chat_model_ auth_token model_config
           else _get_azure_model_ auth_token model_config);
    _ ← new_session session_map model_session_key llm;
    mret (Some llm)
  else
    get_llm session_map model_session_key.

(** Lines 51 to 65 of [_get_model_]: the proxy decision chain.  The local
    [proxy_config] stays unassigned when [model_config.proxy] raises. *)
Definition apply_proxy (config : Config) (model_config : ModelConfig)
    (model_instance : handle) : M handle :=
  proxy_config ← try_except
                   (v ← getattr "proxy" (proxy model_config); mret (Some v))
                   (on_KeyError (mret None));
  current ← read_local "proxy_config" proxy_config;
  proxy_config ← match current with
                 | None =>
                     try_except
                       (getattr "proxy" (global_proxy config))
                       (on_KeyError (mret current))
                 | Some _ => mret current
                 end;
  _ ← match proxy_config with
      | Some p => wrap_llm_with_proxy model_instance p
      | None => mret tt
      end;
  mret model_instance.

(** Lines 46 to 48 of [_get_model_]: [model_instance] starts as [None] and
    is assigned only for the one provider family. *)
Definition dispatch_provider (index : string) (config : Config)
    (model_config : ModelConfig) : M (option handle) :=
  if String.eqb (provider model_config) "openai"
  then _get_openai_model_ index config model_config
  else mret None.

Definition _get_model_ (index : string) : M handle :=
  config ← Config_from_env;
  models ← try_except
             (getattr "models" (models config))
             (on_KeyError (raise ConfigError));
  model_config ← getitem models index;
  match model_config with
  | None => raise (ModelNotFoundError index)
  | Some model_config =>
      model_instance ← dispatch_provider index config model_config;
      match model_instance with
      | None => raise UnsupportedProviderError
      | Some model_instance => apply_proxy config model_config model_instance
      end
  end.

Definition model (index : string) : M handle := _get_model_ index.

End Resolver.

(** Which builder the refresh path calls, and with what. *)
Definition built_client (auth_token : string) (model_config : ModelConfig) : SDKClient :=
  if String.eqb (type model_config) "chat"
  then ChatOpenAI (model_name model_config) auth_token (api_base model_config)
         (azure_kwargs model_config)
  else AzureOpenAI (model_name model_config) auth_token (api_base model_config)
         (api_version model_config) (azure_kwargs model_config).

(** The world after a refresh for [key] that obtained [token]: the call is
    logged, the token published, the client allocated and cached. *)
Definition refreshed (index key token : string) (model_config : ModelConfig)
    (w : World) : World :=
  set_sessions (insert key {| entry_llm := length (heap w); issued_at := now w |})
    (set_heap (λ h, h ++ [ {| client := built_client token model_config;
                              transport := None |} ])
       (set_environ (insert key token)
          (set_issuer_calls (λ l, l ++ [index]) w))).

(** Two worlds that differ at most in the transports of heap objects. *)
Definition same_but_transports (w w' : World) : Prop :=
  loaded_config w' = loaded_config w
  ∧ environ w' = environ w
  ∧ sessions w' = sessions w
  ∧ now w' = now w
  ∧ issuer_calls w' = issuer_calls w
  ∧ length (heap w') = length (heap w)
  ∧ ∀ i : nat, client <$> heap w' !! i = client <$> heap w !! i.

(** The session key the resolver derives for [index], when the index names
    a model. *)
Definition session_key_of (digest : list string → string) (index : string)
    (w : World) : option string :=
  match models (loaded_config w) with
  | Declared (Some ms) =>
      match ms !! index with
      | Some (Some model_config) =>
          Some (uuid_from_config digest (loaded_config w) model_config)
      | _ => None
      end
  | _ => None
  end.

(** ** Observations used by the further properties *)

(** The test of line 73 of [_get_openai_model_]: no raw token under the
    key, or the session map answers that the key is expired. *)
Definition needs_refresh (interval : Interval) (key : string) (w : World) : bool :=
  match environ w !! key with
  | None => true
  | Some _ => expired interval key w
  end.

(** Every cached session has a token published under its key and points
    to a client object on the heap. *)
Definition anchored (w : World) : Prop :=
  ∀ (k : string) (e : SessionEntry),
    sessions w !! k = Some e →
    is_Some (environ w !! k) ∧ entry_llm e < length (heap w).

(** The same process at another time. *)
Definition set_now (t : Z) (w : World) : World :=
  {| loaded_config := loaded_config w; environ := environ w;
     sessions := sessions w; now := t; heap := heap w;
     issuer_calls := issuer_calls w |}.

(** A run of the process: each call resolves an index at a time, whatever
    the outcome of the calls before. *)
Fixpoint resolutions (digest : list string → string)
    (issue_token : string → World → exn + string)
    (calls : list (Z * string)) (w : World) : World :=
  match calls with
  | [] => w
  | (t, index) :: rest =>
      resolutions digest issue_token rest
        (_get_model_ digest issue_token index (set_now t w)).2
  end.

(** ** Scenarios *)

Module Scenario.

Definition digest (fields : list string) : string := String.concat "|" fields.

Definition issuer (index : string) (w : World) : exn + string :=
  inr ("token-" +:+ index).

(** An issuer that is out of service. *)
Definition failing_issuer (index : string) (w : World) : exn + string :=
  inl (TokenIssuerError "token service unavailable").

Definition corporate_proxy : ProxyConfig :=
  {| proxy_host := "proxy.corp.example"; proxy_port := 8080 |}.
Definition model_proxy : ProxyConfig :=
  {| proxy_host := "proxy.model.example"; proxy_port := 3128 |}.

Definition chat_model (p : attr ProxyConfig) : ModelConfig :=
  {| provider := "openai"; type := "chat"; model_name := "gpt-35-turbo";
     api_base := "https://api.example/openai"; api_version := "2023-05-15";
     engine := "gpt-35"; proxy := p |}.

Definition completion_model (p : attr ProxyConfig) : ModelConfig :=
  {| provider := "openai"; type := "completion"; model_name := "davinci";
     api_base := "https://api.example/openai"; api_version := "2023-05-15";
     engine := "davinci-3"; proxy := p |}.

Definition other_model : ModelConfig :=
  {| provider := "anthropic"; type := "chat"; model_name := "claude";
     api_base := "https://api.example/other"; api_version := "1";
     engine := "c"; proxy := Declared None |}.

Definition config_of (m : ModelConfig) (g : attr ProxyConfig) : Config :=
  {| models := Declared (Some (<["1" := Some m]> (<["3" := None]> ∅)));
     global_proxy := g;
     eas := {| token_refresh_interval := Seconds 3600 |} |}.

Definition no_models : Config :=
  {| models := Absent; global_proxy := Absent;
     eas := {| token_refresh_interval := Seconds 3600 |} |}.

(** A models section that is present but empty. *)
Definition empty_models : Config :=
  {| models := Declared (Some ∅); global_proxy := Absent;
     eas := {| token_refresh_interval := Seconds 3600 |} |}.

(** A models section that is present but null. *)
Definition null_models : Config :=
  {| models := Declared None; global_proxy := Absent;
     eas := {| token_refresh_interval := Seconds 3600 |} |}.

(** A process that has resolved nothing yet. *)
Definition start (c : Config) : World :=
  {| loaded_config := c; environ := ∅; sessions := ∅; now := 1000;
     heap := []; issuer_calls := [] |}.

(** The same process at another time. *)
Definition at_time (t : Z) (w : World) : World :=
  {| loaded_config := loaded_config w; environ := environ w;
     sessions := sessions w; now := t; heap := heap w;
     issuer_calls := issuer_calls w |}.

(** Ten seconds after a first resolution of index 1. *)
Definition later (c : Config) : World :=
  at_time 1010 (_get_model_ digest issuer "1" (start c)).2.

(** Past the refresh interval after that first resolution. *)
Definition stale (c : Config) : World :=
  at_time 4601 (_get_model_ digest issuer "1" (later c)).2.

End Scenario.

(** * Verification *)

(** ** Running the monad *)

Lemma bind_Return {A B : Type} (m : M A) (f : A → M B) (w w' : World) (a : A) :
  m w = (Return a, w') → (m ≫= f) w = f a w'.
Proof. intros Hm. unfold mbind, M_bind. by rewrite Hm. Qed.

Lemma bind_Raise {A B : Type} (m : M A) (f : A → M B) (w w' : World) (e : exn) :
  m w = (Raise e, w') → (m ≫= f) w = (Raise e, w').
Proof. intros Hm. unfold mbind, M_bind. by rewrite Hm. Qed.

Lemma expired_false_entry (interval : Interval) (key : string) (w : World) :
  expired interval key w = false → is_Some (sessions w !! key).
Proof. unfold expired. destruct (sessions w !! key); [eauto | discriminate]. Qed.

Section Facts.

Variable digest : list string → string.
Variable issue_token : string → World → exn + string.

Local Abbreviation resolve := (_get_model_ digest issue_token).
Local Abbreviation key_of := (uuid_from_config digest).

(** *** The openai step *)

Lemma openai_hit (index : string) (config : Config) (model_config : ModelConfig)
    (w : World) (token : string) :
  environ w !! key_of config model_config = Some token →
  expired (token_refresh_interval (eas config)) (key_of config model_config) w = false →
  _get_openai_model_ digest issue_token index config model_config w
  = (Return (entry_llm <$> sessions w !! key_of config model_config), w).
Proof.
  intros Htok Hfresh.
  unfold _get_openai_model_, os_getenv, is_expired, get_llm, gets, mbind, M_bind.
  cbn. by rewrite Htok, Hfresh.
Qed.

Lemma openai_miss (index : string) (config : Config) (model_config : ModelConfig)
    (w : World) (token : string) :
  environ w !! key_of config model_config = None
  ∨ expired (token_refresh_interval (eas config)) (key_of config model_config) w = true →
  issue_token index w = inr token →
  _get_openai_model_ digest issue_token index config model_config w
  = (Return (Some (length (heap w))),
     refreshed index (key_of config model_config) token model_config w).
Proof.
  intros Hmiss Hissue.
  assert (match environ w !! key_of config model_config with
          | None => true
          | Some _ => expired (token_refresh_interval (eas config))
                        (key_of config model_config) w
          end = true) as Hrefresh.
  { destruct Hmiss as [-> | ->]; [done | by destruct (environ w !! _)]. }
  unfold _get_openai_model_, os_getenv, is_expired, get_token_from_env, gets,
    mbind, M_bind.
  cbn.
  destruct (environ w !! key_of config model_config) eqn:Henv; cbn;
    rewrite ?Hrefresh, Hissue; cbn;
    unfold refreshed, built_client, _get_chat_model_, _get_azure_model_, new_object;
    destruct (String.eqb (type model_config) "chat"); reflexivity.
Qed.

(** *** The proxy decision chain *)

Lemma apply_proxy_undeclared (config : Config) (model_config : ModelConfig)
    (llm : handle) (w : World) :
  proxy model_config = Absent →
  apply_proxy config model_config llm w
  = (Raise (UnboundLocalError "proxy_config"), w).
Proof. intros Hp. unfold apply_proxy. by rewrite Hp. Qed.

Lemma apply_proxy_model_scoped (config : Config) (model_config : ModelConfig)
    (llm : handle) (w : World) (p : ProxyConfig) :
  proxy model_config = Declared (Some p) →
  apply_proxy config model_config llm w = (Return llm, wrapped llm p w).
Proof. intros Hp. unfold apply_proxy. by rewrite Hp. Qed.

Lemma apply_proxy_global_scoped (config : Config) (model_config : ModelConfig)
    (llm : handle) (w : World) :
  proxy model_config = Declared None →
  apply_proxy config model_config llm w
  = (Return llm,
     match global_proxy config with
     | Declared (Some q) => wrapped llm q w
     | _ => w
     end).
Proof.
  intros Hp. unfold apply_proxy. rewrite Hp.
  by destruct (global_proxy config) as [|[q|]].
Qed.

(** *** The resolver, case by case *)

Lemma resolve_cases (index : string) (w : World) :
  resolve index w
  = match models (loaded_config w) with
    | Absent => (Raise ConfigError, w)
    | Declared None =>
        (Raise (TypeError "'NoneType' object is not subscriptable"), w)
    | Declared (Some ms) =>
        match ms !! index with
        | None => (Raise (ModelNotFoundError index), w)
        | Some None => (Raise (ModelNotFoundError index), w)
        | Some (Some model_config) =>
            match dispatch_provider digest issue_token index (loaded_config w)
                    model_config w with
            | (Return (Some llm), w1) =>
                apply_proxy (loaded_config w) model_config llm w1
            | (Return None, w1) => (Raise UnsupportedProviderError, w1)
            | (Raise e, w1) => (Raise e, w1)
            end
        end
    end.
Proof.
  unfold _get_model_, Config_from_env, gets, try_except, getitem, mbind, M_bind.
  cbn. destruct (models (loaded_config w)) as [|[ms|]]; cbn; try done.
  destruct (ms !! index) as [[model_config|]|]; cbn; try done.
  by destruct (dispatch_provider _ _ _ _ _ w) as [[[llm|]|e] w1].
Qed.

(** *** The resolver, once the index names a model *)

Lemma resolve_model (index : string) (w : World)
    (ms : gmap string (option ModelConfig)) (model_config : ModelConfig) :
  models (loaded_config w) = Declared (Some ms) →
  ms !! index = Some (Some model_config) →
  resolve index w
  = match dispatch_provider digest issue_token index (loaded_config w) model_config w with
    | (Return (Some llm), w1) => apply_proxy (loaded_config w) model_config llm w1
    | (Return None, w1) => (Raise UnsupportedProviderError, w1)
    | (Raise e, w1) => (Raise e, w1)
    end.
Proof. intros Hms Hidx. by rewrite resolve_cases, Hms, Hidx. Qed.

Lemma resolve_openai (index : string) (w : World)
    (ms : gmap string (option ModelConfig)) (model_config : ModelConfig) :
  models (loaded_config w) = Declared (Some ms) →
  ms !! index = Some (Some model_config) →
  provider model_config = "openai" →
  resolve index w
  = match _get_openai_model_ digest issue_token index (loaded_config w) model_config w with
    | (Return (Some llm), w1) => apply_proxy (loaded_config w) model_config llm w1
    | (Return None, w1) => (Raise UnsupportedProviderError, w1)
    | (Raise e, w1) => (Raise e, w1)
    end.
Proof.
  intros Hms Hidx Hprov. rewrite (resolve_model _ _ _ _ Hms Hidx).
  unfold dispatch_provider. by rewrite Hprov.
Qed.

(** *** Failures before the provider is reached *)

(** C7, as amended: when the loaded configuration has no [models]
    attribute at all, the resolution fails with [ConfigError] and leaves
    the world as it found it: the index was not looked up, no token was
    issued, no client was constructed. *)
Theorem no_models_raises_ConfigError (index : string) (w : World) :
  models (loaded_config w) = Absent →
  resolve index w = (Raise ConfigError, w).
Proof. intros Hms. by rewrite resolve_cases, Hms. Qed.

(** X1: an index that maps to a null entry fails with
    [ModelNotFoundError], and the world is left as it was. *)
Lemma null_entry_raises_ModelNotFoundError (index : string) (w : World)
    (ms : gmap string (option ModelConfig)) :
  models (loaded_config w) = Declared (Some ms) →
  ms !! index = Some None →
  resolve index w = (Raise (ModelNotFoundError index), w).
Proof. intros Hms Hidx. by rewrite resolve_cases, Hms, Hidx. Qed.

(** C1: an index that is absent from the configured models, and an index
    that maps to a null entry, fail with [ModelNotFoundError] and with no
    other exception; the world is left as it was. *)
Theorem undefined_index_raises_ModelNotFoundError (index : string) (w : World)
    (ms : gmap string (option ModelConfig)) :
  models (loaded_config w) = Declared (Some ms) →
  ms !! index = None ∨ ms !! index = Some None →
  resolve index w = (Raise (ModelNotFoundError index), w).
Proof.
  intros Hms Hidx. rewrite resolve_cases, Hms.
  by destruct Hidx as [-> | ->].
Qed.

(** C6: a model whose provider is not [openai] fails with
    [UnsupportedProviderError], and so does every dispatch that yields a
    null instance. *)
Theorem unsupported_provider (index : string) (w : World)
    (ms : gmap string (option ModelConfig)) (model_config : ModelConfig) :
  models (loaded_config w) = Declared (Some ms) →
  ms !! index = Some (Some model_config) →
  (provider model_config ≠ "openai" →
   resolve index w = (Raise UnsupportedProviderError, w))
  ∧ (∀ w1 : World,
       dispatch_provider digest issue_token index (loaded_config w) model_config w
       = (Return None, w1) →
       resolve index w = (Raise UnsupportedProviderError, w1)).
Proof.
  intros Hms Hidx. rewrite (resolve_model _ _ _ _ Hms Hidx). split.
  - intros Hprov. unfold dispatch_provider.
    apply String.eqb_neq in Hprov. by rewrite Hprov.
  - intros w1 Hnone. by rewrite Hnone.
Qed.

(** *** What the proxy chain leaves alone *)

Lemma wrapped_client (llm : handle) (p : ProxyConfig) (w : World) (i : nat) :
  client <$> heap (wrapped llm p w) !! i = client <$> heap w !! i.
Proof.
  unfold wrapped. cbn. destruct (decide (llm = i)) as [->|Hne].
  - rewrite list_lookup_alter_eq. by destruct (heap w !! i).
  - by rewrite list_lookup_alter_ne.
Qed.

Lemma wrapped_transport (llm : handle) (p : ProxyConfig) (w : World) (o : LLM) :
  heap w !! llm = Some o →
  heap (wrapped llm p w) !! llm = Some {| client := client o; transport := Some p |}.
Proof.
  intros Ho. unfold wrapped, set_heap. cbn [heap].
  rewrite list_lookup_alter_eq. by rewrite Ho.
Qed.

Lemma same_but_transports_refl (w : World) : same_but_transports w w.
Proof. by repeat split. Qed.

Lemma same_but_transports_wrapped (llm : handle) (p : ProxyConfig) (w : World) :
  same_but_transports w (wrapped llm p w).
Proof.
  repeat split; try done.
  - unfold wrapped. cbn. by rewrite length_alter.
  - intros i. apply wrapped_client.
Qed.

Lemma apply_proxy_frame (config : Config) (model_config : ModelConfig)
    (llm : handle) (w : World) :
  same_but_transports w (apply_proxy config model_config llm w).2.
Proof.
  destruct (proxy model_config) as [|[p|]] eqn:Hp.
  - rewrite apply_proxy_undeclared by done. apply same_but_transports_refl.
  - rewrite (apply_proxy_model_scoped _ _ _ _ p) by done.
    apply same_but_transports_wrapped.
  - rewrite apply_proxy_global_scoped by done. cbn.
    destruct (global_proxy config) as [|[q|]];
      auto using same_but_transports_refl, same_but_transports_wrapped.
Qed.

Lemma apply_proxy_returns (config : Config) (model_config : ModelConfig)
    (llm : handle) (w : World) (v : option ProxyConfig) :
  proxy model_config = Declared v →
  (apply_proxy config model_config llm w).1 = Return llm.
Proof.
  intros Hp. destruct v as [p|].
  - by rewrite (apply_proxy_model_scoped _ _ _ _ p).
  - by rewrite apply_proxy_global_scoped.
Qed.

(** *** The proxy decision chain in the resolver *)

(** X7: with the model's proxy attribute declared as null and no proxy
    settings in the global scope, the handle passes through unwrapped. *)
Lemma null_proxies_pass_through (index : string) (w : World)
    (ms : gmap string (option ModelConfig)) (model_config : ModelConfig)
    (llm : handle) (w1 : World) :
  models (loaded_config w) = Declared (Some ms) →
  ms !! index = Some (Some model_config) →
  proxy model_config = Declared None →
  (∀ q : ProxyConfig, global_proxy (loaded_config w) ≠ Declared (Some q)) →
  dispatch_provider digest issue_token index (loaded_config w) model_config w
  = (Return (Some llm), w1) →
  resolve index w = (Return llm, w1).
Proof.
  intros Hms Hidx Hp Hg Hllm.
  rewrite (resolve_model _ _ _ _ Hms Hidx), Hllm.
  rewrite apply_proxy_global_scoped by done.
  destruct (global_proxy (loaded_config w)) as [|[q|]]; try done.
  by destruct (Hg q).
Qed.

(** C2: with the proxy attribute declared neither on the model nor in the
    global scope, the resolver reads its local [proxy_config] before any
    assignment to it and fails with [UnboundLocalError] in place of
    returning the constructed handle. *)
Theorem undeclared_proxies_raise_UnboundLocalError (index : string) (w : World)
    (ms : gmap string (option ModelConfig)) (model_config : ModelConfig)
    (llm : handle) (w1 : World) :
  models (loaded_config w) = Declared (Some ms) →
  ms !! index = Some (Some model_config) →
  proxy model_config = Absent →
  global_proxy (loaded_config w) = Absent →
  dispatch_provider digest issue_token index (loaded_config w) model_config w
  = (Return (Some llm), w1) →
  resolve index w = (Raise (UnboundLocalError "proxy_config"), w1).
Proof.
  intros Hms Hidx Hp _ Hllm.
  rewrite (resolve_model _ _ _ _ Hms Hidx), Hllm.
  by apply apply_proxy_undeclared.
Qed.

(** C5: a non-null proxy declared on the model is the one the wrapper is
    given, whatever the global scope declares; the global configuration
    plays no part in the outcome. *)
Theorem model_proxy_takes_precedence (index : string) (w : World)
    (ms : gmap string (option ModelConfig)) (model_config : ModelConfig)
    (p : ProxyConfig) (llm : handle) (w1 : World) :
  models (loaded_config w) = Declared (Some ms) →
  ms !! index = Some (Some model_config) →
  proxy model_config = Declared (Some p) →
  dispatch_provider digest issue_token index (loaded_config w) model_config w
  = (Return (Some llm), w1) →
  resolve index w = (Return llm, wrapped llm p w1)
  ∧ (∀ o : LLM, heap w1 !! llm = Some o →
       heap (wrapped llm p w1) !! llm
       = Some {| client := client o; transport := Some p |})
  ∧ (∀ config' : Config,
       apply_proxy config' model_config llm w1
       = apply_proxy (loaded_config w) model_config llm w1).
Proof.
  intros Hms Hidx Hp Hllm. split; [|split].
  - rewrite (resolve_model _ _ _ _ Hms Hidx), Hllm.
    by apply apply_proxy_model_scoped.
  - intros o. apply wrapped_transport.
  - intros config'. by rewrite !(apply_proxy_model_scoped _ _ _ _ p).
Qed.

(** The global proxy is read exactly when the model declares its proxy
    attribute as null. *)
Lemma global_proxy_fallback (config : Config) (model_config : ModelConfig)
    (llm : handle) (w : World) (q : ProxyConfig) :
  proxy model_config = Declared None →
  global_proxy config = Declared (Some q) →
  apply_proxy config model_config llm w = (Return llm, wrapped llm q w).
Proof. intros Hp Hg. rewrite apply_proxy_global_scoped by done. by rewrite Hg. Qed.

(** *** Cache hit *)

Lemma resolve_hit (index : string) (w : World)
    (ms : gmap string (option ModelConfig)) (model_config : ModelConfig)
    (token : string) :
  models (loaded_config w) = Declared (Some ms) →
  ms !! index = Some (Some model_config) →
  provider model_config = "openai" →
  environ w !! key_of (loaded_config w) model_config = Some token →
  expired (token_refresh_interval (eas (loaded_config w)))
    (key_of (loaded_config w) model_config) w = false →
  ∃ e : SessionEntry,
    sessions w !! key_of (loaded_config w) model_config = Some e
    ∧ resolve index w = apply_proxy (loaded_config w) model_config (entry_llm e) w.
Proof.
  intros Hms Hidx Hprov Htok Hfresh.
  destruct (expired_false_entry _ _ _ Hfresh) as [e He].
  exists e. split; [done|].
  rewrite (resolve_openai _ _ _ _ Hms Hidx Hprov).
  rewrite (openai_hit _ _ _ _ token) by done.
  by rewrite He.
Qed.

(** X6: when the model declares its proxy attribute (null or not), a cache hit
    returns the cached handle, calls no Token Issuer and allocates no
    client. *)
Lemma cache_hit_returns_cached (index : string) (w : World)
    (ms : gmap string (option ModelConfig)) (model_config : ModelConfig)
    (token : string) (v : option ProxyConfig) :
  models (loaded_config w) = Declared (Some ms) →
  ms !! index = Some (Some model_config) →
  provider model_config = "openai" →
  environ w !! key_of (loaded_config w) model_config = Some token →
  expired (token_refresh_interval (eas (loaded_config w)))
    (key_of (loaded_config w) model_config) w = false →
  proxy model_config = Declared v →
  ∃ e : SessionEntry,
    sessions w !! key_of (loaded_config w) model_config = Some e
    ∧ (resolve index w).1 = Return (entry_llm e)
    ∧ same_but_transports w (resolve index w).2.
Proof.
  intros Hms Hidx Hprov Htok Hfresh Hp.
  destruct (resolve_hit _ _ _ _ _ Hms Hidx Hprov Htok Hfresh) as (e & He & ->).
  exists e. split; [done|]. split.
  - by apply (apply_proxy_returns _ _ _ _ v).
  - apply apply_proxy_frame.
Qed.

(** C3: on a cache hit for a model that does not declare the proxy
    attribute, the cached handle is fetched but never returned: the
    resolution ends in [UnboundLocalError]. *)
Theorem cache_hit_undeclared_proxy_raises (index : string) (w : World)
    (ms : gmap string (option ModelConfig)) (model_config : ModelConfig)
    (token : string) :
  models (loaded_config w) = Declared (Some ms) →
  ms !! index = Some (Some model_config) →
  provider model_config = "openai" →
  environ w !! key_of (loaded_config w) model_config = Some token →
  expired (token_refresh_interval (eas (loaded_config w)))
    (key_of (loaded_config w) model_config) w = false →
  proxy model_config = Absent →
  resolve index w = (Raise (UnboundLocalError "proxy_config"), w).
Proof.
  intros Hms Hidx Hprov Htok Hfresh Hp.
  destruct (resolve_hit _ _ _ _ _ Hms Hidx Hprov Htok Hfresh) as (e & _ & ->).
  by apply apply_proxy_undeclared.
Qed.

(** C10: a cache hit writes neither to the Token Store nor to the session
    cache. *)
Theorem cache_hit_frame (index : string) (w : World)
    (ms : gmap string (option ModelConfig)) (model_config : ModelConfig)
    (token : string) :
  models (loaded_config w) = Declared (Some ms) →
  ms !! index = Some (Some model_config) →
  provider model_config = "openai" →
  environ w !! key_of (loaded_config w) model_config = Some token →
  expired (token_refresh_interval (eas (loaded_config w)))
    (key_of (loaded_config w) model_config) w = false →
  environ (resolve index w).2 = environ w
  ∧ sessions (resolve index w).2 = sessions w.
Proof.
  intros Hms Hidx Hprov Htok Hfresh.
  destruct (resolve_hit _ _ _ _ _ Hms Hidx Hprov Htok Hfresh) as (e & _ & ->).
  destruct (apply_proxy_frame (loaded_config w) model_config (entry_llm e) w)
    as (_ & Henv & Hses & _).
  by split.
Qed.

(** *** Cache miss *)

Lemma resolve_miss (index : string) (w : World)
    (ms : gmap string (option ModelConfig)) (model_config : ModelConfig)
    (token : string) :
  models (loaded_config w) = Declared (Some ms) →
  ms !! index = Some (Some model_config) →
  provider model_config = "openai" →
  environ w !! key_of (loaded_config w) model_config = None
  ∨ expired (token_refresh_interval (eas (loaded_config w)))
      (key_of (loaded_config w) model_config) w = true →
  issue_token index w = inr token →
  resolve index w
  = apply_proxy (loaded_config w) model_config (length (heap w))
      (refreshed index (key_of (loaded_config w) model_config) token model_config w).
Proof.
  intros Hms Hidx Hprov Hmiss Hissue.
  rewrite (resolve_openai _ _ _ _ Hms Hidx Hprov).
  by rewrite (openai_miss _ _ _ _ token).
Qed.

Lemma refreshed_client (index key token : string) (model_config : ModelConfig)
    (w : World) :
  client <$> heap (refreshed index key token model_config w) !! length (heap w)
  = Some (built_client token model_config).
Proof. unfold refreshed. cbn. by rewrite list_lookup_middle. Qed.

(** When the model declares its proxy attribute (null or not), the Token
    Issuer answers and the SDK constructor returns, a cache miss calls the issuer once, publishes the
    token under the session key, caches the new client and returns it. *)
Lemma cache_miss_refreshes (index : string) (w : World)
    (ms : gmap string (option ModelConfig)) (model_config : ModelConfig)
    (token : string) (v : option ProxyConfig) :
  models (loaded_config w) = Declared (Some ms) →
  ms !! index = Some (Some model_config) →
  provider model_config = "openai" →
  environ w !! key_of (loaded_config w) model_config = None
  ∨ expired (token_refresh_interval (eas (loaded_config w)))
      (key_of (loaded_config w) model_config) w = true →
  issue_token index w = inr token →
  proxy model_config = Declared v →
  ∃ w' : World,
    resolve index w = (Return (length (heap w)), w')
    ∧ heap w !! length (heap w) = None
    ∧ issuer_calls w' = issuer_calls w ++ [index]
    ∧ environ w' = <[key_of (loaded_config w) model_config := token]> (environ w)
    ∧ sessions w'
      = <[key_of (loaded_config w) model_config :=
            {| entry_llm := length (heap w); issued_at := now w |}]> (sessions w)
    ∧ length (heap w') = S (length (heap w))
    ∧ client <$> heap w' !! length (heap w) = Some (built_client token model_config).
Proof.
  intros Hms Hidx Hprov Hmiss Hissue Hp.
  rewrite (resolve_miss _ _ _ _ _ Hms Hidx Hprov Hmiss Hissue).
  set (w1 := refreshed _ _ _ _ w).
  pose proof (apply_proxy_returns (loaded_config w) model_config
                (length (heap w)) w1 v Hp) as Hret.
  destruct (apply_proxy_frame (loaded_config w) model_config (length (heap w)) w1)
    as (_ & Henv & Hses & _ & Hcalls & Hlen & Hcli).
  destruct (apply_proxy _ _ _ w1) as [r w'] eqn:Hrun. cbn [fst snd] in *. subst r.
  exists w'. split; [done|].
  split; [by apply lookup_ge_None_2|].
  repeat split.
  - by rewrite Hcalls.
  - by rewrite Henv.
  - by rewrite Hses.
  - rewrite Hlen. unfold w1, refreshed. cbn. rewrite length_app. cbn. lia.
  - rewrite Hcli. unfold w1. apply refreshed_client.
Qed.

(** C4: on a cache miss for a model that does not declare the proxy
    attribute, the token is issued and published and the new client is
    built and cached, but the resolution then ends in [UnboundLocalError]
    and the fresh handle is not returned. *)
Theorem cache_miss_undeclared_proxy_raises (index : string) (w : World)
    (ms : gmap string (option ModelConfig)) (model_config : ModelConfig)
    (token : string) :
  models (loaded_config w) = Declared (Some ms) →
  ms !! index = Some (Some model_config) →
  provider model_config = "openai" →
  environ w !! key_of (loaded_config w) model_config = None
  ∨ expired (token_refresh_interval (eas (loaded_config w)))
      (key_of (loaded_config w) model_config) w = true →
  issue_token index w = inr token →
  proxy model_config = Absent →
  resolve index w
  = (Raise (UnboundLocalError "proxy_config"),
     refreshed index (key_of (loaded_config w) model_config) token model_config w).
Proof.
  intros Hms Hidx Hprov Hmiss Hissue Hp.
  rewrite (resolve_miss _ _ _ _ _ Hms Hidx Hprov Hmiss Hissue).
  by apply apply_proxy_undeclared.
Qed.

(** C8: on the refresh path exactly one client is constructed, by the chat
    builder when the model type is [chat] and by the completion builder
    otherwise, from the model name, the API base, the API version and the
    engine of the model configuration, with the [azure] API type among the
    extra parameters. *)
Theorem refresh_builds_client (index : string) (w : World)
    (ms : gmap string (option ModelConfig)) (model_config : ModelConfig)
    (token : string) :
  models (loaded_config w) = Declared (Some ms) →
  ms !! index = Some (Some model_config) →
  provider model_config = "openai" →
  environ w !! key_of (loaded_config w) model_config = None
  ∨ expired (token_refresh_interval (eas (loaded_config w)))
      (key_of (loaded_config w) model_config) w = true →
  issue_token index w = inr token →
  length (heap (resolve index w).2) = S (length (heap w))
  ∧ client <$> heap (resolve index w).2 !! length (heap w)
    = Some (if String.eqb (type model_config) "chat"
            then ChatOpenAI (model_name model_config) token (api_base model_config)
                   (azure_kwargs model_config)
            else AzureOpenAI (model_name model_config) token (api_base model_config)
                   (api_version model_config) (azure_kwargs model_config))
  ∧ azure_kwargs model_config !! "engine" = Some (engine model_config)
  ∧ azure_kwargs model_config !! "api_version" = Some (api_version model_config)
  ∧ azure_kwargs model_config !! "api_type" = Some "azure".
Proof.
  intros Hms Hidx Hprov Hmiss Hissue.
  rewrite (resolve_miss _ _ _ _ _ Hms Hidx Hprov Hmiss Hissue).
  set (w1 := refreshed _ _ _ _ w).
  destruct (apply_proxy_frame (loaded_config w) model_config (length (heap w)) w1)
    as (_ & _ & _ & _ & _ & Hlen & Hcli).
  split; [|split].
  - rewrite Hlen. unfold w1, refreshed. cbn. rewrite length_app. cbn. lia.
  - rewrite Hcli. unfold w1. apply refreshed_client.
  - unfold azure_kwargs. by simplify_map_eq.
Qed.

End Facts.

(** ** The scenario of three resolutions *)

(** Index 1 is an [openai] chat model with a refresh interval of 3600
    seconds and a null proxy attribute.  The first resolution issues a
    token and builds the client; the second, ten seconds later, returns the
    same handle with no further issuer call; the third, 3601 seconds after
    the first, issues again and returns a new handle. *)
Example three_resolutions :
  let c := Scenario.config_of (Scenario.chat_model (Declared None)) Absent in
  let run w := _get_model_ Scenario.digest Scenario.issuer "1" w in
  ((run (Scenario.start c)).1, issuer_calls (run (Scenario.start c)).2)
  = (Return 0, ["1"])
  ∧ ((run (Scenario.later c)).1, issuer_calls (run (Scenario.later c)).2)
    = (Return 0, ["1"])
  ∧ ((run (Scenario.stale c)).1, issuer_calls (run (Scenario.stale c)).2)
    = (Return 1, ["1"; "1"]).
Proof. repeat split; vm_compute; reflexivity. Qed.

(** The expiry boundary of the modelled cache. *)
Lemma expired_boundary (d : Z) (key : string) (w : World) (e : SessionEntry) :
  sessions w !! key = Some e →
  expired (Seconds d) key w = true ↔ (d ≤ now w - issued_at e)%Z.
Proof. intros He. unfold expired. rewrite He. apply Z.leb_le. Qed.

(** ** The theorems at the scenarios *)

Lemma no_models_raises_ConfigError_witness :
  _get_model_ Scenario.digest Scenario.issuer "1" (Scenario.start Scenario.no_models)
  = (Raise ConfigError, Scenario.start Scenario.no_models).
Proof.
  apply (no_models_raises_ConfigError Scenario.digest Scenario.issuer "1"
           (Scenario.start Scenario.no_models)).
  reflexivity.
Defined.

(** C7, as first stated, fails: with a models section that is present but
    null or empty, no model is defined at all, and the resolution does not
    end in [ConfigError]. *)
Lemma no_models_defined_counterexample :
  let run c := (_get_model_ Scenario.digest Scenario.issuer "1" (Scenario.start c)).1 in
  run Scenario.null_models = Raise (TypeError "'NoneType' object is not subscriptable")
  ∧ run Scenario.empty_models = Raise (ModelNotFoundError "1")
  ∧ run Scenario.null_models ≠ Raise ConfigError
  ∧ run Scenario.empty_models ≠ Raise ConfigError.
Proof. intros run. repeat split; [reflexivity..|discriminate|discriminate]. Qed.

Lemma undefined_index_raises_ModelNotFoundError_witness :
  let w := Scenario.start (Scenario.config_of (Scenario.chat_model (Declared None)) Absent) in
  _get_model_ Scenario.digest Scenario.issuer "2" w = (Raise (ModelNotFoundError "2"), w)
  ∧ _get_model_ Scenario.digest Scenario.issuer "3" w = (Raise (ModelNotFoundError "3"), w).
Proof.
  intros w. split.
  - apply (undefined_index_raises_ModelNotFoundError Scenario.digest Scenario.issuer
             "2" w
             (<["1" := Some (Scenario.chat_model (Declared None))]> (<["3" := None]> ∅)));
      [reflexivity|left; reflexivity].
  - apply (undefined_index_raises_ModelNotFoundError Scenario.digest Scenario.issuer
             "3" w
             (<["1" := Some (Scenario.chat_model (Declared None))]> (<["3" := None]> ∅)));
      [reflexivity|right; reflexivity].
Defined.

Lemma unsupported_provider_witness :
  let w := Scenario.start (Scenario.config_of Scenario.other_model Absent) in
  _get_model_ Scenario.digest Scenario.issuer "1" w = (Raise UnsupportedProviderError, w).
Proof.
  intros w.
  refine (proj1 (unsupported_provider Scenario.digest Scenario.issuer "1" w
                   (<["1" := Some Scenario.other_model]> (<["3" := None]> ∅))
                   Scenario.other_model _ _) _);
    [reflexivity | reflexivity | discriminate].
Defined.

Lemma undeclared_proxies_raise_UnboundLocalError_witness :
  let m := Scenario.chat_model Absent in
  let w := Scenario.start (Scenario.config_of m Absent) in
  _get_model_ Scenario.digest Scenario.issuer "1" w
  = (Raise (UnboundLocalError "proxy_config"),
     (dispatch_provider Scenario.digest Scenario.issuer "1" (loaded_config w) m w).2).
Proof.
  intros m w.
  apply (undeclared_proxies_raise_UnboundLocalError Scenario.digest Scenario.issuer
           "1" w (<["1" := Some m]> (<["3" := None]> ∅)) m 0);
    reflexivity.
Defined.

Lemma model_proxy_takes_precedence_witness :
  let m := Scenario.chat_model (Declared (Some Scenario.model_proxy)) in
  let w := Scenario.start
             (Scenario.config_of m (Declared (Some Scenario.corporate_proxy))) in
  let w1 := (dispatch_provider Scenario.digest Scenario.issuer "1"
               (loaded_config w) m w).2 in
  _get_model_ Scenario.digest Scenario.issuer "1" w
  = (Return 0, wrapped 0 Scenario.model_proxy w1).
Proof.
  intros m w w1.
  refine (proj1 (model_proxy_takes_precedence Scenario.digest Scenario.issuer
                   "1" w (<["1" := Some m]> (<["3" := None]> ∅)) m
                   Scenario.model_proxy 0 w1 _ _ _ _));
    reflexivity.
Defined.

Lemma cache_hit_undeclared_proxy_raises_witness :
  let m := Scenario.chat_model Absent in
  let w := Scenario.later (Scenario.config_of m Absent) in
  _get_model_ Scenario.digest Scenario.issuer "1" w
  = (Raise (UnboundLocalError "proxy_config"), w).
Proof.
  intros m w.
  apply (cache_hit_undeclared_proxy_raises Scenario.digest Scenario.issuer
           "1" w (<["1" := Some m]> (<["3" := None]> ∅)) m "token-1");
    reflexivity.
Defined.

Lemma cache_hit_frame_witness :
  let m := Scenario.chat_model (Declared (Some Scenario.model_proxy)) in
  let w := Scenario.later (Scenario.config_of m Absent) in
  environ (_get_model_ Scenario.digest Scenario.issuer "1" w).2 = environ w
  ∧ sessions (_get_model_ Scenario.digest Scenario.issuer "1" w).2 = sessions w.
Proof.
  intros m w.
  apply (cache_hit_frame Scenario.digest Scenario.issuer
           "1" w (<["1" := Some m]> (<["3" := None]> ∅)) m "token-1");
    reflexivity.
Defined.

Lemma cache_miss_undeclared_proxy_raises_witness :
  let m := Scenario.completion_model Absent in
  let w := Scenario.start
             (Scenario.config_of m (Declared (Some Scenario.corporate_proxy))) in
  _get_model_ Scenario.digest Scenario.issuer "1" w
  = (Raise (UnboundLocalError "proxy_config"),
     refreshed "1" (uuid_from_config Scenario.digest (loaded_config w) m)
       "token-1" m w).
Proof.
  intros m w.
  apply (cache_miss_undeclared_proxy_raises Scenario.digest Scenario.issuer
           "1" w (<["1" := Some m]> (<["3" := None]> ∅)) m "token-1");
    try reflexivity.
  left. reflexivity.
Defined.

Lemma refresh_builds_client_witness :
  let m := Scenario.chat_model (Declared None) in
  let w := Scenario.start (Scenario.config_of m Absent) in
  client <$> heap (_get_model_ Scenario.digest Scenario.issuer "1" w).2 !! 0
  = Some (ChatOpenAI "gpt-35-turbo" "token-1" "https://api.example/openai"
            (azure_kwargs m)).
Proof.
  intros m w.
  refine (proj1 (proj2 (refresh_builds_client Scenario.digest Scenario.issuer
                          "1" w (<["1" := Some m]> (<["3" := None]> ∅)) m "token-1"
                          _ _ _ _ _)));
    try reflexivity.
  left. reflexivity.
Defined.

(** * Further properties of the resolver *)

Lemma anchored_set_now (t : Z) (w : World) : anchored w → anchored (set_now t w).
Proof. intros Hw k e He. exact (Hw k e He). Qed.

Section MoreFacts.

Variable digest : list string → string.
Variable issue_token : string → World → exn + string.

Local Abbreviation resolve := (_get_model_ digest issue_token).
Local Abbreviation key_of := (uuid_from_config digest).

(** *** The openai step and the resolver in closed form *)

Lemma openai_cases (index : string) (config : Config) (model_config : ModelConfig)
    (w : World) :
  _get_openai_model_ digest issue_token index config model_config w
  = if needs_refresh (token_refresh_interval (eas config))
         (key_of config model_config) w
    then match issue_token index w with
         | inr token =>
             (Return (Some (length (heap w))),
              refreshed index (key_of config model_config) token model_config w)
         | inl e => (Raise e, set_issuer_calls (λ l, l ++ [index]) w)
         end
    else (Return (entry_llm <$> sessions w !! key_of config model_config), w).
Proof.
  unfold needs_refresh, _get_openai_model_, os_getenv, is_expired, get_llm,
    get_token_from_env, gets, mbind, M_bind.
  cbn.
  destruct (environ w !! key_of config model_config); cbn;
    [destruct (expired _ _ w); cbn; [|done]|];
    (destruct (issue_token index w); cbn; [done|]);
    unfold refreshed, built_client, _get_chat_model_, _get_azure_model_, new_object;
    by destruct (String.eqb (type model_config) "chat").
Qed.

Lemma not_needs_refresh_entry (interval : Interval) (key : string) (w : World) :
  needs_refresh interval key w = false →
  is_Some (environ w !! key) ∧ is_Some (sessions w !! key).
Proof.
  unfold needs_refresh. destruct (environ w !! key); [|discriminate].
  intros Hexp. split; [eauto|]. by apply (expired_false_entry interval).
Qed.

(** The resolver on an index that names an [openai] model. *)
Lemma resolve_openai_cases (index : string) (w : World)
    (ms : gmap string (option ModelConfig)) (model_config : ModelConfig) :
  models (loaded_config w) = Declared (Some ms) →
  ms !! index = Some (Some model_config) →
  provider model_config = "openai" →
  resolve index w
  = if needs_refresh (token_refresh_interval (eas (loaded_config w)))
         (key_of (loaded_config w) model_config) w
    then match issue_token index w with
         | inr token =>
             apply_proxy (loaded_config w) model_config (length (heap w))
               (refreshed index (key_of (loaded_config w) model_config) token
                  model_config w)
         | inl e => (Raise e, set_issuer_calls (λ l, l ++ [index]) w)
         end
    else match sessions w !! key_of (loaded_config w) model_config with
         | Some e => apply_proxy (loaded_config w) model_config (entry_llm e) w
         | None => (Raise UnsupportedProviderError, w)
         end.
Proof.
  intros Hms Hidx Hprov.
  rewrite (resolve_openai _ _ _ _ _ _ Hms Hidx Hprov), openai_cases.
  destruct (needs_refresh _ _ w).
  - by destruct (issue_token index w).
  - by destruct (sessions w !! _).
Qed.

(** *** What one resolution can do to the world *)

(** Either nothing but transports changed, or only the issuer call was
    logged, or a refresh for the session key of the index took place. *)
Lemma resolve_effects (index : string) (w : World) :
  same_but_transports w (resolve index w).2
  ∨ (resolve index w).2 = set_issuer_calls (λ l, l ++ [index]) w
  ∨ ∃ (model_config : ModelConfig) (token : string),
      session_key_of digest index w = Some (key_of (loaded_config w) model_config)
      ∧ same_but_transports
          (refreshed index (key_of (loaded_config w) model_config) token
             model_config w)
          (resolve index w).2.
Proof.
  destruct (models (loaded_config w)) as [|[ms|]] eqn:Hms;
    [left; rewrite resolve_cases, Hms; apply same_but_transports_refl| |
     left; rewrite resolve_cases, Hms; apply same_but_transports_refl].
  destruct (ms !! index) as [[model_config|]|] eqn:Hidx;
    [|left; rewrite resolve_cases, Hms, Hidx; apply same_but_transports_refl..].
  destruct (String.eqb (provider model_config) "openai") eqn:Hprov.
  - apply String.eqb_eq in Hprov.
    rewrite (resolve_openai_cases _ _ _ _ Hms Hidx Hprov).
    destruct (needs_refresh _ _ w).
    + destruct (issue_token index w) as [e|token].
      * right. by left.
      * right. right. exists model_config, token. split.
        -- unfold session_key_of. by rewrite Hms, Hidx.
        -- apply apply_proxy_frame.
    + left. destruct (sessions w !! _).
      * apply apply_proxy_frame.
      * apply same_but_transports_refl.
  - left. rewrite (resolve_model _ _ _ _ _ _ Hms Hidx). unfold dispatch_provider.
    rewrite Hprov. apply same_but_transports_refl.
Qed.

(** X9: a resolution calls the Token Issuer at most once, and only for the
    index it was asked to resolve. *)
Theorem at_most_one_issuer_call (index : string) (w : World) :
  issuer_calls (resolve index w).2 = issuer_calls w
  ∨ issuer_calls (resolve index w).2 = issuer_calls w ++ [index].
Proof.
  destruct (resolve_effects index w)
    as [(_ & _ & _ & _ & Hcalls & _) | [-> | (mc & token & _ & Hsame)]].
  - by left.
  - by right.
  - right. by destruct Hsame as (_ & _ & _ & _ & -> & _).
Qed.

(** X10: a resolution removes nothing: every key of the Token Store and of
    the session cache stays defined, every client object stays at its
    handle with the client it was built as, and at most one object is
    allocated. *)
Theorem resolve_never_removes (index : string) (w : World) :
  (∀ k : string, is_Some (environ w !! k) → is_Some (environ (resolve index w).2 !! k))
  ∧ (∀ k : string,
       is_Some (sessions w !! k) → is_Some (sessions (resolve index w).2 !! k))
  ∧ (∀ (i : nat) (o : LLM),
       heap w !! i = Some o →
       client <$> heap (resolve index w).2 !! i = Some (client o))
  ∧ length (heap w) ≤ length (heap (resolve index w).2) ≤ S (length (heap w)).
Proof.
  destruct (resolve_effects index w)
    as [Hsame | [-> | (mc & token & _ & Hsame)]].
  - destruct Hsame as (_ & -> & -> & _ & _ & -> & Hcli).
    repeat split; try done; try lia.
    intros i o Ho. by rewrite Hcli, Ho.
  - repeat split; try done; cbn; try lia.
    intros i o Ho. by rewrite Ho.
  - destruct Hsame as (_ & -> & -> & _ & _ & -> & Hcli).
    unfold refreshed. cbn. repeat split.
    + intros k Hk. apply lookup_insert_is_Some'. by right.
    + intros k Hk. apply lookup_insert_is_Some'. by right.
    + intros i o Ho. rewrite Hcli. unfold refreshed. cbn.
      by rewrite (lookup_app_l_Some _ _ _ _ Ho).
    + rewrite length_app. cbn. lia.
    + rewrite length_app. cbn. lia.
Qed.

(** X11: a resolution reads and writes the two stores under the session key
    of its index only: every other key keeps its token and its session. *)
Theorem resolve_frame_other_keys (index k : string) (w : World) :
  session_key_of digest index w ≠ Some k →
  environ (resolve index w).2 !! k = environ w !! k
  ∧ sessions (resolve index w).2 !! k = sessions w !! k.
Proof.
  intros Hk.
  destruct (resolve_effects index w)
    as [Hsame | [-> | (mc & token & Hkey & Hsame)]].
  - by destruct Hsame as (_ & -> & -> & _).
  - done.
  - destruct Hsame as (_ & -> & -> & _).
    assert (key_of (loaded_config w) mc ≠ k) as Hne by congruence.
    unfold refreshed. cbn. by rewrite !lookup_insert_ne.
Qed.

(** *** Sessions, tokens and client objects *)

Lemma resolve_keeps_anchored (index : string) (w : World) :
  anchored w → anchored (resolve index w).2.
Proof.
  intros Hw.
  destruct (resolve_effects index w)
    as [Hsame | [-> | (mc & token & _ & Hsame)]].
  - destruct Hsame as (_ & Henv & Hses & _ & _ & Hlen & _).
    intros k e He. rewrite Hses in He. rewrite Henv, Hlen. exact (Hw k e He).
  - exact Hw.
  - set (key := key_of (loaded_config w) mc) in *.
    destruct Hsame as (_ & Henv & Hses & _ & _ & Hlen & _).
    intros k e He. rewrite Hses in He. rewrite Henv, Hlen.
    unfold refreshed in He |- *. cbn in He |- *. rewrite length_app. cbn.
    destruct (decide (key = k)) as [<-|Hne].
    + rewrite lookup_insert_eq in He. injection He as <-. cbn.
      rewrite lookup_insert_eq. split; [eauto|lia].
    + rewrite lookup_insert_ne in He by done.
      rewrite lookup_insert_ne by done.
      destruct (Hw k e He) as [Htok Hlt]. split; [done|lia].
Qed.

(** X12: an invariant of the process: through any run of resolutions, at
    any times, for any indices and whatever each one's outcome, every
    cached session has a token published under its key in the Token Store
    and points to a client object on the heap: the resolver never caches a
    session before its token is published. *)
Theorem resolutions_keep_anchored (calls : list (Z * string)) (w : World) :
  anchored w → anchored (resolutions digest issue_token calls w).
Proof.
  revert w. induction calls as [|[t index] rest IH]; intros w Hw; [done|].
  cbn. apply IH, resolve_keeps_anchored. by apply anchored_set_now.
Qed.

(** *** Outcomes *)

(** X2: a resolution that ends in one of the module's own
    [LCELModelException] errors has published no token, cached no session
    and built no client: the Token Store, the session cache and the heap
    are as they were. *)
Theorem domain_error_changes_nothing (index msg : string) (w w' : World) :
  resolve index w = (Raise (LCELModelException msg), w') →
  environ w' = environ w ∧ sessions w' = sessions w ∧ heap w' = heap w.
Proof.
  rewrite resolve_cases.
  destruct (models (loaded_config w)) as [|[ms|]]; [by intros [= _ <-]| |by intros [=]].
  destruct (ms !! index) as [[model_config|]|]; [|by intros [= _ <-]..].
  assert (∀ llm w1, apply_proxy (loaded_config w) model_config llm w1
                    ≠ (Raise (LCELModelException msg), w')) as Hproxy.
  { intros llm w1. destruct (proxy model_config) as [|[p|]] eqn:Hp.
    - by rewrite apply_proxy_undeclared.
    - by rewrite (apply_proxy_model_scoped _ _ _ _ p).
    - by rewrite apply_proxy_global_scoped. }
  unfold dispatch_provider.
  destruct (String.eqb (provider model_config) "openai"); [|by intros [= _ <-]].
  rewrite openai_cases. destruct (needs_refresh _ _ w).
  - destruct (issue_token index w) as [e|token].
    + by intros [= _ <-].
    + intros H. by destruct (Hproxy _ _ H).
  - destruct (sessions w !! _); cbn.
    + intros H. by destruct (Hproxy _ _ H).
    + by intros [= _ <-].
Qed.

(** X3: a resolution returns a handle only if the index names a model
    whose provider is [openai] and which declares its proxy attribute,
    and, when a refresh was due, only if the Token Issuer answered. *)
Theorem resolve_returns_only_if (index : string) (w w' : World) (llm : handle) :
  resolve index w = (Return llm, w') →
  ∃ (ms : gmap string (option ModelConfig)) (model_config : ModelConfig),
    models (loaded_config w) = Declared (Some ms)
    ∧ ms !! index = Some (Some model_config)
    ∧ provider model_config = "openai"
    ∧ (∃ v : option ProxyConfig, proxy model_config = Declared v)
    ∧ (needs_refresh (token_refresh_interval (eas (loaded_config w)))
         (key_of (loaded_config w) model_config) w = true →
       ∃ token : string, issue_token index w = inr token).
Proof.
  rewrite resolve_cases.
  destruct (models (loaded_config w)) as [|[ms|]]; [by intros [=]| |by intros [=]].
  destruct (ms !! index) as [[model_config|]|] eqn:Hidx; [|by intros [=]..].
  assert (∀ llm' w1, apply_proxy (loaded_config w) model_config llm' w1
                     = (Return llm, w') →
                     ∃ v, proxy model_config = Declared v) as Hproxy.
  { intros llm' w1. destruct (proxy model_config) as [|[p|]] eqn:Hp; [|by eauto..].
    by rewrite apply_proxy_undeclared. }
  unfold dispatch_provider.
  destruct (String.eqb (provider model_config) "openai") eqn:Hprov; [|by intros [=]].
  apply String.eqb_eq in Hprov.
  rewrite openai_cases. destruct (needs_refresh _ _ w) eqn:Hneed.
  - destruct (issue_token index w) as [e|token]; [by intros [=]|].
    intros Hv%Hproxy. exists ms, model_config.
    do 4 (split; [done|]). intros _. by exists token.
  - destruct (sessions w !! _); cbn; [|by intros [=]].
    intros Hv%Hproxy. exists ms, model_config.
    do 4 (split; [done|]). intros Hdue. by rewrite Hneed in Hdue.
Qed.

(** X4: when a refresh is due and the Token Issuer fails, its exception
    reaches the caller as it is, and nothing is published or cached: only
    the call itself took place. *)
Theorem issuer_failure_publishes_nothing (index : string) (w : World)
    (ms : gmap string (option ModelConfig)) (model_config : ModelConfig)
    (e : exn) :
  models (loaded_config w) = Declared (Some ms) →
  ms !! index = Some (Some model_config) →
  provider model_config = "openai" →
  needs_refresh (token_refresh_interval (eas (loaded_config w)))
    (key_of (loaded_config w) model_config) w = true →
  issue_token index w = inl e →
  resolve index w = (Raise e, set_issuer_calls (λ l, l ++ [index]) w).
Proof.
  intros Hms Hidx Hprov Hneed Hfail.
  by rewrite (resolve_openai_cases _ _ _ _ Hms Hidx Hprov), Hneed, Hfail.
Qed.

(** X8: when the model declares its proxy attribute as null and the global
    scope declares a proxy, the handle is wrapped with the global proxy. *)
Theorem global_proxy_applies (index : string) (w : World)
    (ms : gmap string (option ModelConfig)) (model_config : ModelConfig)
    (q : ProxyConfig) (llm : handle) (w1 : World) :
  models (loaded_config w) = Declared (Some ms) →
  ms !! index = Some (Some model_config) →
  proxy model_config = Declared None →
  global_proxy (loaded_config w) = Declared (Some q) →
  dispatch_provider digest issue_token index (loaded_config w) model_config w
  = (Return (Some llm), w1) →
  resolve index w = (Return llm, wrapped llm q w1)
  ∧ (∀ o : LLM, heap w1 !! llm = Some o →
       heap (wrapped llm q w1) !! llm
       = Some {| client := client o; transport := Some q |}).
Proof.
  intros Hms Hidx Hp Hg Hllm. split.
  - rewrite (resolve_model _ _ _ _ _ _ Hms Hidx), Hllm.
    rewrite apply_proxy_global_scoped by done. by rewrite Hg.
  - intros o. apply wrapped_transport.
Qed.

(** *** Resolving the same index again *)

(** The world a successful refresh leaves, up to transports, seen at a
    later time. *)
Lemma after_refresh (index : string) (w : World)
    (ms : gmap string (option ModelConfig)) (model_config : ModelConfig)
    (token : string) (v : option ProxyConfig) :
  models (loaded_config w) = Declared (Some ms) →
  ms !! index = Some (Some model_config) →
  provider model_config = "openai" →
  needs_refresh (token_refresh_interval (eas (loaded_config w)))
    (key_of (loaded_config w) model_config) w = true →
  issue_token index w = inr token →
  proxy model_config = Declared v →
  (resolve index w).1 = Return (length (heap w))
  ∧ same_but_transports
      (refreshed index (key_of (loaded_config w) model_config) token model_config w)
      (resolve index w).2.
Proof.
  intros Hms Hidx Hprov Hneed Htok Hp.
  rewrite (resolve_openai_cases _ _ _ _ Hms Hidx Hprov), Hneed, Htok.
  split; [by apply (apply_proxy_returns _ _ _ _ v)|apply apply_proxy_frame].
Qed.

(** X13: after a successful refresh, a later resolution of the same index
    for which the session map answers "not expired" returns the very
    handle the first one returned and calls no Token Issuer. *)
Theorem resolve_again_returns_same_handle (index : string) (w : World)
    (ms : gmap string (option ModelConfig)) (model_config : ModelConfig)
    (token : string) (v : option ProxyConfig) (t : Z) :
  models (loaded_config w) = Declared (Some ms) →
  ms !! index = Some (Some model_config) →
  provider model_config = "openai" →
  needs_refresh (token_refresh_interval (eas (loaded_config w)))
    (key_of (loaded_config w) model_config) w = true →
  issue_token index w = inr token →
  proxy model_config = Declared v →
  expired (token_refresh_interval (eas (loaded_config w)))
    (key_of (loaded_config w) model_config) (set_now t (resolve index w).2) = false →
  (resolve index w).1 = Return (length (heap w))
  ∧ (resolve index (set_now t (resolve index w).2)).1 = Return (length (heap w))
  ∧ issuer_calls (resolve index (set_now t (resolve index w).2)).2
    = issuer_calls w ++ [index].
Proof.
  intros Hms Hidx Hprov Hneed Htok Hp Hfresh.
  destruct (after_refresh _ _ _ _ _ v Hms Hidx Hprov Hneed Htok Hp)
    as [Hret (Hcfg & Henv & Hses & _ & Hcalls & _)].
  split; [done|].
  set (w2 := set_now t (resolve index w).2) in *.
  set (key := key_of (loaded_config w) model_config) in *.
  assert (loaded_config w2 = loaded_config w) as Hcfg2 by exact Hcfg.
  assert (environ w2 !! key = Some token) as Henv2.
  { unfold w2. cbn. rewrite Henv. unfold refreshed. cbn. apply lookup_insert_eq. }
  assert (sessions w2 !! key
          = Some {| entry_llm := length (heap w); issued_at := now w |}) as Hses2.
  { unfold w2. cbn. rewrite Hses. unfold refreshed. cbn. apply lookup_insert_eq. }
  assert (resolve index w2
          = apply_proxy (loaded_config w) model_config (length (heap w)) w2) as ->.
  { rewrite (resolve_openai_cases index w2 ms model_config); rewrite ?Hcfg2; try done.
    fold key. unfold needs_refresh. by rewrite Henv2, Hfresh, Hses2. }
  split; [by apply (apply_proxy_returns _ _ _ _ v)|].
  destruct (apply_proxy_frame (loaded_config w) model_config (length (heap w)) w2)
    as (_ & _ & _ & _ & -> & _).
  unfold w2. cbn. by rewrite Hcalls.
Qed.

End MoreFacts.

(** ** The further properties at the scenarios *)

Lemma null_entry_raises_ModelNotFoundError_witness :
  let w := Scenario.start (Scenario.config_of (Scenario.chat_model (Declared None)) Absent) in
  _get_model_ Scenario.digest Scenario.issuer "3" w = (Raise (ModelNotFoundError "3"), w).
Proof.
  intros w.
  apply (null_entry_raises_ModelNotFoundError Scenario.digest Scenario.issuer "3" w
           (<["1" := Some (Scenario.chat_model (Declared None))]> (<["3" := None]> ∅)));
    reflexivity.
Defined.

Lemma null_proxies_pass_through_witness :
  let m := Scenario.chat_model (Declared None) in
  let w := Scenario.start (Scenario.config_of m (Declared None)) in
  _get_model_ Scenario.digest Scenario.issuer "1" w
  = (Return 0,
     (dispatch_provider Scenario.digest Scenario.issuer "1" (loaded_config w) m w).2).
Proof.
  intros m w.
  apply (null_proxies_pass_through Scenario.digest Scenario.issuer "1" w
           (<["1" := Some m]> (<["3" := None]> ∅)) m 0);
    try reflexivity.
  intros q. discriminate.
Defined.

Lemma global_proxy_applies_witness :
  let m := Scenario.completion_model (Declared None) in
  let w := Scenario.start
             (Scenario.config_of m (Declared (Some Scenario.corporate_proxy))) in
  let w1 := (dispatch_provider Scenario.digest Scenario.issuer "1"
               (loaded_config w) m w).2 in
  _get_model_ Scenario.digest Scenario.issuer "1" w
  = (Return 0, wrapped 0 Scenario.corporate_proxy w1).
Proof.
  intros m w w1.
  refine (proj1 (global_proxy_applies Scenario.digest Scenario.issuer "1" w
                   (<["1" := Some m]> (<["3" := None]> ∅)) m
                   Scenario.corporate_proxy 0 w1 _ _ _ _ _));
    reflexivity.
Defined.

Lemma cache_hit_returns_cached_witness :
  let m := Scenario.chat_model (Declared None) in
  let w := Scenario.later (Scenario.config_of m Absent) in
  ∃ e : SessionEntry,
    sessions w !! uuid_from_config Scenario.digest (loaded_config w) m = Some e
    ∧ (_get_model_ Scenario.digest Scenario.issuer "1" w).1 = Return (entry_llm e)
    ∧ same_but_transports w (_get_model_ Scenario.digest Scenario.issuer "1" w).2.
Proof.
  intros m w.
  apply (cache_hit_returns_cached Scenario.digest Scenario.issuer "1" w
           (<["1" := Some m]> (<["3" := None]> ∅)) m "token-1" None);
    reflexivity.
Defined.

Lemma resolve_frame_other_keys_witness :
  let m := Scenario.chat_model (Declared None) in
  let w := Scenario.start (Scenario.config_of m Absent) in
  environ (_get_model_ Scenario.digest Scenario.issuer "1" w).2 !! "HOME"
  = environ w !! "HOME"
  ∧ sessions (_get_model_ Scenario.digest Scenario.issuer "1" w).2 !! "HOME"
    = sessions w !! "HOME".
Proof.
  intros m w.
  apply (resolve_frame_other_keys Scenario.digest Scenario.issuer "1" "HOME" w).
  vm_compute. discriminate.
Defined.

Lemma resolutions_keep_anchored_witness :
  let c := Scenario.config_of (Scenario.chat_model (Declared None)) Absent in
  anchored (resolutions Scenario.digest Scenario.issuer
              [(1000%Z, "1"); (1010%Z, "3"); (4601%Z, "1")] (Scenario.start c)).
Proof.
  intros c.
  apply (resolutions_keep_anchored Scenario.digest Scenario.issuer).
  intros k e He. simpl in He. rewrite lookup_empty in He. discriminate.
Defined.

Lemma domain_error_changes_nothing_witness :
  let w := Scenario.later
             (Scenario.config_of (Scenario.chat_model (Declared None)) Absent) in
  let w' := (_get_model_ Scenario.digest Scenario.issuer "3" w).2 in
  environ w' = environ w ∧ sessions w' = sessions w ∧ heap w' = heap w.
Proof.
  intros w w'.
  apply (domain_error_changes_nothing Scenario.digest Scenario.issuer "3"
           ("Model config at index " +:+ quote +:+ "3" +:+ quote +:+ " is not defined")
           w w').
  reflexivity.
Defined.

Lemma resolve_returns_only_if_witness :
  let m := Scenario.chat_model (Declared None) in
  let w := Scenario.start (Scenario.config_of m Absent) in
  ∃ (ms : gmap string (option ModelConfig)) (model_config : ModelConfig),
    models (loaded_config w) = Declared (Some ms)
    ∧ ms !! "1" = Some (Some model_config)
    ∧ provider model_config = "openai"
    ∧ (∃ v : option ProxyConfig, proxy model_config = Declared v)
    ∧ (needs_refresh (token_refresh_interval (eas (loaded_config w)))
         (uuid_from_config Scenario.digest (loaded_config w) model_config) w = true →
       ∃ token : string, Scenario.issuer "1" w = inr token).
Proof.
  intros m w.
  apply (resolve_returns_only_if Scenario.digest Scenario.issuer "1" w
           (_get_model_ Scenario.digest Scenario.issuer "1" w).2 0).
  reflexivity.
Defined.

Lemma issuer_failure_publishes_nothing_witness :
  let m := Scenario.chat_model (Declared None) in
  let w := Scenario.start (Scenario.config_of m Absent) in
  _get_model_ Scenario.digest Scenario.failing_issuer "1" w
  = (Raise (TokenIssuerError "token service unavailable"),
     set_issuer_calls (λ l, l ++ ["1"]) w).
Proof.
  intros m w.
  apply (issuer_failure_publishes_nothing Scenario.digest Scenario.failing_issuer
           "1" w (<["1" := Some m]> (<["3" := None]> ∅)) m);
    reflexivity.
Defined.

Lemma resolve_again_returns_same_handle_witness :
  let m := Scenario.chat_model (Declared None) in
  let w := Scenario.start (Scenario.config_of m Absent) in
  let run := _get_model_ Scenario.digest Scenario.issuer "1" in
  (run w).1 = Return 0
  ∧ (run (set_now 1010 (run w).2)).1 = Return 0
  ∧ issuer_calls (run (set_now 1010 (run w).2)).2 = issuer_calls w ++ ["1"].
Proof.
  intros m w run.
  apply (resolve_again_returns_same_handle Scenario.digest Scenario.issuer "1" w
           (<["1" := Some m]> (<["3" := None]> ∅)) m "token-1" None 1010);
    reflexivity.
Defined.

